(** * Amiga PSU tick generator (src/main.c): a shallow embedding

    The program targets an STM8S105 compiled with sdcc: [unsigned char] is
    8 bits wide, [unsigned short], [int] and [unsigned int] are 16 bits wide.
    Memory-mapped registers are modelled as a record of 8-bit values held
    in [Z]; the C code is embedded in a small monad that threads the
    register file and logs every volatile access in program order. *)

From Stdlib Require Import ZArith List Bool Lia.
Import ListNotations.

Local Open Scope Z_scope.

(** ** Fixed-width integers *)

Module Width.

Definition u8 (x : Z) : Z := x mod 2 ^ 8.
Definition u16 (x : Z) : Z := x mod 2 ^ 16.

(** [~x] on a 16-bit unsigned operand (an [unsigned short] promotes to
    [unsigned int], which is 16 bits wide here). *)
Definition not16 (x : Z) : Z := u16 (Z.lnot x).

Definition is_u8 (x : Z) : Prop := 0 <= x < 2 ^ 8.

End Width.

Import Width.

(** ** The register file *)

Inductive reg : Type :=
| CLK_CKDIVR
| TIM1_CNTRH
| TIM1_CNTRL
| TIM1_PSCRH
| TIM1_PSCRL
| TIM1_CR1
| PB_ODR
| PB_IDR
| PB_DDR
| PB_CR1.

(** The addresses of the [#define]s. *)
Definition addr (r : reg) : Z :=
  match r with
  | CLK_CKDIVR => 0x50C6
  | TIM1_CNTRH => 0x525E
  | TIM1_CNTRL => 0x525F
  | TIM1_PSCRH => 0x5260
  | TIM1_PSCRL => 0x5261
  | TIM1_CR1 => 0x5250
  | PB_ODR => 0x5005
  | PB_IDR => 0x5006
  | PB_DDR => 0x5007
  | PB_CR1 => 0x5008
  end.

Record regs : Type := mkRegs {
  clk_ckdivr : Z;
  tim1_cntrh : Z;
  tim1_cntrl : Z;
  tim1_pscrh : Z;
  tim1_pscrl : Z;
  tim1_cr1 : Z;
  pb_odr : Z;
  pb_idr : Z;
  pb_ddr : Z;
  pb_cr1 : Z
}.

Definition get (r : reg) (s : regs) : Z :=
  match r with
  | CLK_CKDIVR => clk_ckdivr s
  | TIM1_CNTRH => tim1_cntrh s
  | TIM1_CNTRL => tim1_cntrl s
  | TIM1_PSCRH => tim1_pscrh s
  | TIM1_PSCRL => tim1_pscrl s
  | TIM1_CR1 => tim1_cr1 s
  | PB_ODR => pb_odr s
  | PB_IDR => pb_idr s
  | PB_DDR => pb_ddr s
  | PB_CR1 => pb_cr1 s
  end.

Definition set (r : reg) (v : Z) (s : regs) : regs :=
  match s with
  | mkRegs ckd ch cl ph pl cr1 odr idr ddr pcr1 =>
    match r with
    | CLK_CKDIVR => mkRegs v ch cl ph pl cr1 odr idr ddr pcr1
    | TIM1_CNTRH => mkRegs ckd v cl ph pl cr1 odr idr ddr pcr1
    | TIM1_CNTRL => mkRegs ckd ch v ph pl cr1 odr idr ddr pcr1
    | TIM1_PSCRH => mkRegs ckd ch cl v pl cr1 odr idr ddr pcr1
    | TIM1_PSCRL => mkRegs ckd ch cl ph v cr1 odr idr ddr pcr1
    | TIM1_CR1 => mkRegs ckd ch cl ph pl v odr idr ddr pcr1
    | PB_ODR => mkRegs ckd ch cl ph pl cr1 v idr ddr pcr1
    | PB_IDR => mkRegs ckd ch cl ph pl cr1 odr v ddr pcr1
    | PB_DDR => mkRegs ckd ch cl ph pl cr1 odr idr v pcr1
    | PB_CR1 => mkRegs ckd ch cl ph pl cr1 odr idr ddr v
    end
  end.

(** Every register holds an [unsigned char]. *)
Definition regs_ok (s : regs) : Prop := forall r, is_u8 (get r s).

(** ** Volatile accesses, in program order *)

Inductive event : Type :=
| Rd (r : reg) (v : Z)
| Wr (r : reg) (v : Z).

Module IO.

(** A computation reads and writes the register file and appends the
    accesses it makes to a log. *)
Definition io (A : Type) : Type := regs -> A * regs * list event.

Definition ret {A : Type} (a : A) : io A := fun s => (a, s, []).

Definition bind {A B : Type} (m : io A) (k : A -> io B) : io B :=
  fun s =>
    match m s with
    | (a, s1, t1) =>
      match k a s1 with
      | (b, s2, t2) => (b, s2, t1 ++ t2)
      end
    end.

(** [x = R;] *)
Definition load (r : reg) : io Z :=
  fun s => (get r s, s, [Rd r (get r s)]).

(** [R = v;], the value converted to [unsigned char]. *)
Definition store (r : reg) (v : Z) : io unit :=
  fun s => (tt, set r (u8 v) s, [Wr r (u8 v)]).

Definition result {A : Type} (m : io A) (s : regs) : A := fst (fst (m s)).
Definition exec {A : Type} (m : io A) (s : regs) : regs := snd (fst (m s)).
Definition trace {A : Type} (m : io A) (s : regs) : list event := snd (m s).

End IO.

Import IO.

Notation "x <- m ;; k" := (bind m (fun x => k))
  (at level 61, m at next level, right associativity).
Notation "m ;;; k" := (bind m (fun _ => k))
  (at level 61, right associativity).

(** ** The program *)

Definition TICK_PIN : Z := 0x01.
Definition FREQ_SELECT_PIN : Z := 0x02.
Definition TICKS_50HZ : Z := 40000.
Definition TICKS_60HZ : Z := 33333.

(** [clock()] *)
Definition clock : io Z :=
  h <- load TIM1_CNTRH ;;
  l <- load TIM1_CNTRL ;;
  ret (u16 (Z.lor (u16 (Z.shiftl (u16 h) 8)) l)).

(** [reset_clock()] *)
Definition reset_clock : io unit :=
  store TIM1_CNTRH 0xff ;;;
  store TIM1_CNTRL 0xff.

(** [PB_ODR |= TICK_PIN;] *)
Definition tick_up : io unit :=
  odr <- load PB_ODR ;;
  store PB_ODR (Z.lor odr TICK_PIN).

(** [PB_ODR &= ~TICK_PIN;] *)
Definition tick_down : io unit :=
  odr <- load PB_ODR ;;
  store PB_ODR (Z.land odr (not16 TICK_PIN)).

(** The part of [main] before [while (1)]. *)
Definition startup : io unit :=
  store CLK_CKDIVR 0x00 ;;;
  store TIM1_PSCRH 0x00 ;;;
  store TIM1_PSCRL (0x08 - 1) ;;;
  store TIM1_CR1 0x01 ;;;
  store PB_DDR (Z.lor TICK_PIN FREQ_SELECT_PIN) ;;;
  store PB_CR1 (Z.lor TICK_PIN FREQ_SELECT_PIN) ;;;
  tick_down.

(** The locals of one pass through the body of [while (1)]. *)
Record locals : Type := mkLocals {
  ticks : Z;
  ck0 : Z;
  ck : Z
}.

(** The body of [while (1)]; it hands back its locals so that they can be
    talked about. *)
Definition loop_body : io locals :=
  idr <- load PB_IDR ;;
  let ticks := if Z.land idr FREQ_SELECT_PIN =? 0 then TICKS_50HZ else TICKS_60HZ in
  ck0 <- clock ;;
  ck <- (if ticks <? ck0 then reset_clock ;;; ret 0 else ret ck0) ;;
  (if ticks / 2 <? ck then tick_up else tick_down) ;;;
  ret (mkLocals ticks ck0 ck).

(** ** The hardware around the program

    The timer counts and the select pin is driven from outside, whatever the
    program does.  Before each pass through the loop the hardware presents a
    fresh 8-bit value in each of the three registers the pass reads. *)

Record sample : Type := mkSample {
  in_idr : Z;
  in_cntrh : Z;
  in_cntrl : Z
}.

Definition observe (i : sample) (s : regs) : regs :=
  set PB_IDR (u8 (in_idr i))
    (set TIM1_CNTRH (u8 (in_cntrh i))
       (set TIM1_CNTRL (u8 (in_cntrl i)) s)).

Definition hardware (i : sample) : io unit := fun s => (tt, observe i s, []).

(** The select level [sel] on port B and the timer at count [c]. *)
Definition sample_at (sel c : Z) : sample :=
  mkSample sel (Z.shiftr c 8) (Z.land c 0xff).

(** As many passes through [while (1)] as there are samples. *)
Fixpoint loop (inputs : list sample) : io (list locals) :=
  match inputs with
  | [] => ret []
  | i :: rest =>
    hardware i ;;;
    l <- loop_body ;;
    ls <- loop rest ;;
    ret (l :: ls)
  end.

(** [main], cut off after [length inputs] passes. *)
Definition main (inputs : list sample) : io (list locals) :=
  startup ;;;
  loop inputs.

(** ** Reading the pins and the clock tree *)

(** [v & pin], as a C condition. *)
Definition pin_high (pin v : Z) : bool := negb (Z.land v pin =? 0).

(** The level the program drives on the tick pin. *)
Definition tick_out (s : regs) : bool := pin_high TICK_PIN (get PB_ODR s).

(** The level on the frequency-select pin. *)
Definition freq_select (s : regs) : bool := pin_high FREQ_SELECT_PIN (get PB_IDR s).

(** "Let F0 = 16MHz" *)
Definition F0 : Z := 16000000.

(** The 16-bit prescaler register of timer 1. *)
Definition PSCR (s : regs) : Z :=
  Z.lor (Z.shiftl (get TIM1_PSCRH s) 8) (get TIM1_PSCRL s).

(** "the prescaler value is defined as PSCR+1 (so that 0 is divide by 1)" *)
Definition timer_hz (s : regs) : Z := F0 / (PSCR s + 1).

(** How port B treats a pin: the STM8S reads a set bit of the data direction
    register as output and a clear bit as input; the bit of configuration
    register 1 then chooses push-pull over open drain for an output and
    pull-up over floating for an input. *)
Inductive pin_mode : Type :=
| Input_floating
| Input_pull_up
| Output_open_drain
| Output_push_pull.

Definition mode_of_bits (ddr cr1 : bool) : pin_mode :=
  match ddr, cr1 with
  | false, false => Input_floating
  | false, true => Input_pull_up
  | true, false => Output_open_drain
  | true, true => Output_push_pull
  end.

Definition pin_mode_of (pin : Z) (s : regs) : pin_mode :=
  mode_of_bits (pin_high pin (get PB_DDR s)) (pin_high pin (get PB_CR1 s)).

(** ** Counting the high ticks of a period *)

(** The tick level after one pass that finds select level [sel] and the
    timer at [c]. *)
Definition high_at (s : regs) (sel c : Z) : bool :=
  tick_out (exec loop_body (observe (sample_at sel c) s)).

(** The number of counts [c] in [[0, n)] at which the tick is driven high. *)
Fixpoint high_count (s : regs) (sel : Z) (n : nat) : Z :=
  match n with
  | O => 0
  | S k => high_count s sel k + (if high_at s sel (Z.of_nat k) then 1 else 0)
  end.

(** ** Following the writes to the output register *)

(** Each write to [PB_ODR] in the log keeps every bit outside [pin] as the
    register held it just before; [odr] is the register's content when the
    log starts. *)
Fixpoint odr_writes_keep (pin odr : Z) (t : list event) : Prop :=
  match t with
  | [] => True
  | Wr PB_ODR v :: t' =>
    (forall i, Z.testbit pin i = false -> Z.testbit v i = Z.testbit odr i)
    /\ odr_writes_keep pin v t'
  | _ :: t' => odr_writes_keep pin odr t'
  end.

(** The content of [PB_ODR] after the log. *)
Fixpoint odr_after (odr : Z) (t : list event) : Z :=
  match t with
  | [] => odr
  | Wr PB_ODR v :: t' => odr_after v t'
  | _ :: t' => odr_after odr t'
  end.

(** The register file at power-on, all clear. *)
Definition power_on : regs := mkRegs 0 0 0 0 0 0 0 0 0 0.

(** ** The two values the program writes to the output register *)

(** The value [PB_ODR |= TICK_PIN] writes. *)
Definition odr_up (odr : Z) : Z := u8 (Z.lor odr TICK_PIN).

(** The value [PB_ODR &= ~TICK_PIN] writes. *)
Definition odr_down (odr : Z) : Z := u8 (Z.land odr (not16 TICK_PIN)).

(** ** What one pass sees *)

(** The target period a pass from [s] selects. *)
Definition selected (s : regs) : Z := ticks (result loop_body s).

(** The counter value a pass from [s] samples. *)
Definition sampled (s : regs) : Z := ck0 (result loop_body s).

(** The logical counter value a pass from [s] decides on. *)
Definition logical (s : regs) : Z := ck (result loop_body s).

(** ** Reading the access log *)

(** Two registers are the same when they sit at the same address. *)
Definition reg_eqb (a b : reg) : bool := addr a =? addr b.

(** The values read from [r], in order. *)
Fixpoint reads_of (r : reg) (t : list event) : list Z :=
  match t with
  | [] => []
  | Rd r' v :: t' => if reg_eqb r r' then v :: reads_of r t' else reads_of r t'
  | Wr _ _ :: t' => reads_of r t'
  end.

(** The values written to [r], in order. *)
Fixpoint writes_to (r : reg) (t : list event) : list Z :=
  match t with
  | [] => []
  | Wr r' v :: t' => if reg_eqb r r' then v :: writes_to r t' else writes_to r t'
  | Rd _ _ :: t' => writes_to r t'
  end.

(** The registers startup programs: clock divider, prescaler, timer enable
    and the direction and configuration of port B. *)
Definition is_config (r : reg) : bool :=
  match r with
  | CLK_CKDIVR | TIM1_PSCRH | TIM1_PSCRL | TIM1_CR1 | PB_DDR | PB_CR1 => true
  | TIM1_CNTRH | TIM1_CNTRL | PB_ODR | PB_IDR => false
  end.

(** * Properties *)

(** ** The register file *)

Lemma get_set_same (r : reg) (v : Z) (s : regs) : get r (set r v s) = v.
Proof. destruct s, r; reflexivity. Qed.

Lemma get_set_other (r r' : reg) (v : Z) (s : regs) :
  r <> r' -> get r (set r' v s) = get r s.
Proof. destruct s, r, r'; intros H; try reflexivity; contradiction H; reflexivity. Qed.

Lemma set_set_same (r : reg) (v w : Z) (s : regs) : set r v (set r w s) = set r v s.
Proof. destruct s, r; reflexivity. Qed.

Lemma u8_range (x : Z) : is_u8 (u8 x).
Proof. unfold is_u8, u8. apply Z.mod_pos_bound. reflexivity. Qed.

Lemma u8_small (x : Z) : is_u8 x -> u8 x = x.
Proof. unfold is_u8, u8. intros H. apply Z.mod_small. exact H. Qed.

Lemma u16_small (x : Z) : 0 <= x < 2 ^ 16 -> u16 x = x.
Proof. unfold u16. intros H. apply Z.mod_small. exact H. Qed.

(** ** Bits of the tick pin *)

Lemma pin_high_pow2 (k v : Z) : 0 <= k -> pin_high (2 ^ k) v = Z.testbit v k.
Proof.
  intros Hk. unfold pin_high.
  destruct (Z.eqb_spec (Z.land v (2 ^ k)) 0) as [E | E]; cbn [negb].
  - assert (H : Z.testbit (Z.land v (2 ^ k)) k = false) by (rewrite E; apply Z.bits_0).
    rewrite Z.land_spec, Z.pow2_bits_true, andb_true_r in H by exact Hk.
    symmetry. exact H.
  - destruct (Z.testbit v k) eqn:T; [reflexivity |].
    contradiction E. apply Z.bits_inj'. intros i Hi.
    rewrite Z.land_spec, Z.bits_0, Z.pow2_bits_eqb by exact Hk.
    destruct (Z.eqb_spec k i) as [-> | _].
    + rewrite T. reflexivity.
    + apply andb_false_r.
Qed.

Lemma pin_high_tick (v : Z) : pin_high TICK_PIN v = Z.testbit v 0.
Proof. apply (pin_high_pow2 0). lia. Qed.

Lemma pin_high_freq_select (v : Z) : pin_high FREQ_SELECT_PIN v = Z.testbit v 1.
Proof. apply (pin_high_pow2 1). lia. Qed.

Lemma testbit_u8 (x i : Z) : Z.testbit (u8 x) i = (i <? 8) && Z.testbit x i.
Proof.
  unfold u8. destruct (Z.ltb_spec i 8) as [H | H]; cbn [andb orb negb].
  - apply Z.mod_pow2_bits_low. exact H.
  - apply Z.mod_pow2_bits_high. lia.
Qed.

Lemma testbit_is_u8 (x i : Z) : is_u8 x -> 8 <= i -> Z.testbit x i = false.
Proof.
  intros H Hi. rewrite <- (u8_small x H), testbit_u8.
  destruct (Z.ltb_spec i 8); [lia | reflexivity].
Qed.

Lemma testbit_tick_pin (i : Z) : Z.testbit TICK_PIN i = (i =? 0).
Proof. unfold TICK_PIN. change 1 with (2 ^ 0). rewrite Z.pow2_bits_eqb by lia. apply Z.eqb_sym. Qed.

Lemma testbit_not16_tick (i : Z) :
  0 <= i < 16 -> Z.testbit (not16 TICK_PIN) i = negb (i =? 0).
Proof.
  intros H. unfold not16, u16.
  rewrite Z.mod_pow2_bits_low by lia.
  rewrite Z.lnot_spec by lia. rewrite testbit_tick_pin. reflexivity.
Qed.

Lemma odr_up_tick (odr : Z) : pin_high TICK_PIN (odr_up odr) = true.
Proof.
  rewrite pin_high_tick. unfold odr_up. rewrite testbit_u8, Z.lor_spec, testbit_tick_pin.
  cbn [andb orb negb]. apply orb_true_r.
Qed.

Lemma odr_down_tick (odr : Z) : pin_high TICK_PIN (odr_down odr) = false.
Proof.
  rewrite pin_high_tick. unfold odr_down.
  rewrite testbit_u8, Z.land_spec, testbit_not16_tick by lia.
  cbn [andb orb negb]. apply andb_false_r.
Qed.

Lemma odr_up_keeps (odr i : Z) :
  is_u8 odr -> Z.testbit TICK_PIN i = false ->
  Z.testbit (odr_up odr) i = Z.testbit odr i.
Proof.
  intros Hu Hi. unfold odr_up. rewrite testbit_u8, Z.lor_spec, Hi, orb_false_r.
  destruct (Z.ltb_spec i 8) as [H | H]; cbn [andb orb negb]; [reflexivity |].
  symmetry. apply testbit_is_u8; assumption.
Qed.

Lemma odr_down_keeps (odr i : Z) :
  is_u8 odr -> Z.testbit TICK_PIN i = false ->
  Z.testbit (odr_down odr) i = Z.testbit odr i.
Proof.
  intros Hu Hi. unfold odr_down. rewrite testbit_u8, Z.land_spec.
  destruct (Z.ltb_spec i 8) as [H | H]; cbn [andb orb negb].
  - destruct (Z.ltb_spec i 0) as [Hn | Hn].
    + rewrite !Z.testbit_neg_r by lia. reflexivity.
    + rewrite testbit_not16_tick by lia.
      rewrite testbit_tick_pin in Hi. rewrite Hi. cbn [andb orb negb]. apply andb_true_r.
  - symmetry. apply testbit_is_u8; assumption.
Qed.

(** ** Running a computation *)

Section Run.

Context {A B : Type}.
Variables (m : io A) (k : A -> io B) (s : regs).

Lemma result_bind : result (bind m k) s = result (k (result m s)) (exec m s).
Proof.
  unfold result, exec, bind. destruct (m s) as [[a s1] t1]. cbn [fst snd].
  destruct (k a s1) as [[b s2] t2]. reflexivity.
Qed.

Lemma exec_bind : exec (bind m k) s = exec (k (result m s)) (exec m s).
Proof.
  unfold result, exec, bind. destruct (m s) as [[a s1] t1]. cbn [fst snd].
  destruct (k a s1) as [[b s2] t2]. reflexivity.
Qed.

Lemma trace_bind :
  trace (bind m k) s = trace m s ++ trace (k (result m s)) (exec m s).
Proof.
  unfold result, exec, trace, bind. destruct (m s) as [[a s1] t1]. cbn [fst snd].
  destruct (k a s1) as [[b s2] t2]. reflexivity.
Qed.

End Run.

Lemma result_load (r : reg) (s : regs) : result (load r) s = get r s.
Proof. reflexivity. Qed.

Lemma exec_load (r : reg) (s : regs) : exec (load r) s = s.
Proof. reflexivity. Qed.

Lemma trace_load (r : reg) (s : regs) : trace (load r) s = [Rd r (get r s)].
Proof. reflexivity. Qed.

Lemma exec_store (r : reg) (v : Z) (s : regs) : exec (store r v) s = set r (u8 v) s.
Proof. reflexivity. Qed.

Lemma trace_store (r : reg) (v : Z) (s : regs) : trace (store r v) s = [Wr r (u8 v)].
Proof. reflexivity. Qed.

Lemma result_ret {A : Type} (a : A) (s : regs) : result (ret a) s = a.
Proof. reflexivity. Qed.

Lemma exec_ret {A : Type} (a : A) (s : regs) : exec (ret a) s = s.
Proof. reflexivity. Qed.

Lemma trace_ret {A : Type} (a : A) (s : regs) : trace (ret a) s = [].
Proof. reflexivity. Qed.

Create Rewrite HintDb io.
#[local] Hint Rewrite @result_bind @exec_bind @trace_bind result_load exec_load trace_load
  exec_store trace_store @result_ret @exec_ret @trace_ret : io.

Ltac run_io := autorewrite with io; cbn [app].

(** ** The subroutines *)

Lemma result_clock (s : regs) :
  result clock s =
  u16 (Z.lor (u16 (Z.shiftl (u16 (get TIM1_CNTRH s)) 8)) (get TIM1_CNTRL s)).
Proof. unfold clock. run_io. reflexivity. Qed.

Lemma exec_clock (s : regs) : exec clock s = s.
Proof. unfold clock. run_io. reflexivity. Qed.

Lemma trace_clock (s : regs) :
  trace clock s = [Rd TIM1_CNTRH (get TIM1_CNTRH s); Rd TIM1_CNTRL (get TIM1_CNTRL s)].
Proof. unfold clock. run_io. reflexivity. Qed.

Lemma exec_reset_clock (s : regs) :
  exec reset_clock s = set TIM1_CNTRL 0xff (set TIM1_CNTRH 0xff s).
Proof. unfold reset_clock. run_io. reflexivity. Qed.

Lemma trace_reset_clock (s : regs) :
  trace reset_clock s = [Wr TIM1_CNTRH 0xff; Wr TIM1_CNTRL 0xff].
Proof. unfold reset_clock. run_io. reflexivity. Qed.

Lemma exec_tick_up (s : regs) : exec tick_up s = set PB_ODR (odr_up (get PB_ODR s)) s.
Proof. unfold tick_up. run_io. reflexivity. Qed.

Lemma trace_tick_up (s : regs) :
  trace tick_up s = [Rd PB_ODR (get PB_ODR s); Wr PB_ODR (odr_up (get PB_ODR s))].
Proof. unfold tick_up. run_io. reflexivity. Qed.

Lemma exec_tick_down (s : regs) : exec tick_down s = set PB_ODR (odr_down (get PB_ODR s)) s.
Proof. unfold tick_down. run_io. reflexivity. Qed.

Lemma trace_tick_down (s : regs) :
  trace tick_down s = [Rd PB_ODR (get PB_ODR s); Wr PB_ODR (odr_down (get PB_ODR s))].
Proof. unfold tick_down. run_io. reflexivity. Qed.

#[local] Hint Rewrite result_clock exec_clock trace_clock exec_reset_clock trace_reset_clock
  exec_tick_up trace_tick_up exec_tick_down trace_tick_down : io.

(** ** One pass through the loop, equationally *)

Lemma selected_eq (s : regs) :
  selected s = if freq_select s then TICKS_60HZ else TICKS_50HZ.
Proof.
  unfold selected, loop_body, freq_select, pin_high. run_io.
  destruct (Z.land (get PB_IDR s) FREQ_SELECT_PIN =? 0); reflexivity.
Qed.

Lemma sampled_eq (s : regs) : sampled s = result clock s.
Proof. unfold sampled, loop_body. run_io. reflexivity. Qed.

Lemma logical_eq (s : regs) :
  logical s = if selected s <? sampled s then 0 else sampled s.
Proof.
  rewrite selected_eq, sampled_eq. 
  unfold logical, loop_body, freq_select, pin_high. run_io.
  destruct (Z.land (get PB_IDR s) FREQ_SELECT_PIN =? 0); cbn [negb];
  match goal with |- context [if ?b then _ else _] => destruct b end; run_io; reflexivity. 
Qed.

(** The register file a pass leaves. *)
Lemma exec_loop_body (s : regs) :
  exec loop_body s =
  let s1 := if selected s <? sampled s then exec reset_clock s else s in
  if selected s / 2 <? logical s then exec tick_up s1 else exec tick_down s1.
Proof.
  rewrite logical_eq, selected_eq, sampled_eq.
  unfold loop_body, freq_select, pin_high. run_io.
  destruct (Z.land (get PB_IDR s) FREQ_SELECT_PIN =? 0); cbn [negb]; cbv zeta.
  all: match goal with |- context [if ?b then 0 else _] => destruct b end; run_io;
    try reflexivity;
    match goal with |- context [if ?b then tick_up else _] => destruct b end;
    run_io; reflexivity.
Qed.

(** The accesses a pass makes, in order. *)
Lemma trace_loop_body (s : regs) :
  trace loop_body s =
  Rd PB_IDR (get PB_IDR s) :: trace clock s ++
  (if selected s <? sampled s then trace reset_clock s else []) ++
  let s1 := if selected s <? sampled s then exec reset_clock s else s in
  if selected s / 2 <? logical s then trace tick_up s1 else trace tick_down s1.
Proof.
  rewrite logical_eq, selected_eq, sampled_eq.
  unfold loop_body, freq_select, pin_high. run_io.
  destruct (Z.land (get PB_IDR s) FREQ_SELECT_PIN =? 0); cbn [negb]; cbv zeta.
  all: match goal with |- context [if ?b then 0 else _] => destruct b end; run_io;
    try reflexivity;
    match goal with |- context [if ?b then tick_up else _] => destruct b end;
    run_io; rewrite ?app_nil_r; reflexivity.
Qed.

(** ** What a pass leaves untouched *)

Lemma pass_keeps_inputs (v : Z) (s : regs) :
  selected (set PB_ODR v s) = selected s /\
  sampled (set PB_ODR v s) = sampled s /\
  logical (set PB_ODR v s) = logical s.
Proof.
  assert (Hsel : selected (set PB_ODR v s) = selected s).
  { rewrite !selected_eq. unfold freq_select.
    rewrite get_set_other by discriminate. reflexivity. }
  assert (Hsam : sampled (set PB_ODR v s) = sampled s).
  { rewrite !sampled_eq, !result_clock.
    rewrite !get_set_other by discriminate. reflexivity. }
  repeat split; try assumption.
  rewrite !logical_eq, Hsel, Hsam. reflexivity.
Qed.

Lemma tick_out_loop_body (s : regs) :
  tick_out (exec loop_body s) = (selected s / 2 <? logical s).
Proof.
  rewrite exec_loop_body. cbv zeta. unfold tick_out.
  destruct (selected s / 2 <? logical s).
  - rewrite exec_tick_up, get_set_same. apply odr_up_tick.
  - rewrite exec_tick_down, get_set_same. apply odr_down_tick.
Qed.

Lemma selected_cases (s : regs) : selected s = TICKS_50HZ \/ selected s = TICKS_60HZ.
Proof. rewrite selected_eq. destruct (freq_select s); [right | left]; reflexivity. Qed.

(** ** Period-boundary detection *)



(** ** Frequency selection *)

Lemma selected_observe (i : sample) (s : regs) :
  selected (observe i s) = if Z.testbit (in_idr i) 1 then TICKS_60HZ else TICKS_50HZ.
Proof.
  rewrite selected_eq. unfold freq_select, observe.
  rewrite get_set_same, pin_high_freq_select, testbit_u8. reflexivity.
Qed.

Lemma result_loop_cons (i : sample) (rest : list sample) (s : regs) :
  result (loop (i :: rest)) s =
  result loop_body (observe i s)
  :: result (loop rest) (exec loop_body (observe i s)).
Proof. cbn [loop]. run_io. reflexivity. Qed.

Lemma exec_loop_cons (i : sample) (rest : list sample) (s : regs) :
  exec (loop (i :: rest)) s = exec (loop rest) (exec loop_body (observe i s)).
Proof. cbn [loop]. run_io. reflexivity. Qed.

Lemma trace_loop_cons (i : sample) (rest : list sample) (s : regs) :
  trace (loop (i :: rest)) s =
  trace loop_body (observe i s) ++ trace (loop rest) (exec loop_body (observe i s)).
Proof. cbn [loop]. run_io. rewrite app_nil_r. reflexivity. Qed.


(** ** Passes that do not overshoot *)

Lemma odr_up_idem (odr : Z) : odr_up (odr_up odr) = odr_up odr.
Proof.
  unfold odr_up. apply Z.bits_inj'. intros i _.
  rewrite !testbit_u8, !Z.lor_spec, testbit_u8, Z.lor_spec.
  destruct (i <? 8), (Z.testbit odr i), (Z.testbit TICK_PIN i); reflexivity.
Qed.

Lemma odr_down_idem (odr : Z) : odr_down (odr_down odr) = odr_down odr.
Proof.
  unfold odr_down. apply Z.bits_inj'. intros i _.
  rewrite !testbit_u8, !Z.land_spec, testbit_u8, Z.land_spec.
  destruct (i <? 8), (Z.testbit odr i), (Z.testbit (not16 TICK_PIN) i); reflexivity.
Qed.

Lemma exec_loop_body_quiet (s : regs) :
  sampled s <= selected s ->
  exec loop_body s =
  set PB_ODR
    ((if selected s / 2 <? sampled s then odr_up else odr_down) (get PB_ODR s)) s.
Proof.
  intros H.
  assert (Hr : (selected s <? sampled s) = false) by (apply Z.ltb_ge; lia).
  rewrite exec_loop_body, logical_eq, Hr. cbv zeta.
  destruct (selected s / 2 <? sampled s); run_io; reflexivity.
Qed.


Lemma loop_body_idem (s : regs) :
  sampled s <= selected s ->
  exec loop_body (exec loop_body s) = exec loop_body s.
Proof.
  intros H. rewrite (exec_loop_body_quiet s H).
  destruct (pass_keeps_inputs
              ((if selected s / 2 <? sampled s then odr_up else odr_down) (get PB_ODR s)) s)
    as (Hsel & Hsam & _).
  rewrite exec_loop_body_quiet by (rewrite Hsel, Hsam; exact H).
  rewrite Hsel, Hsam, get_set_same, set_set_same.
  destruct (selected s / 2 <? sampled s);
    [rewrite odr_up_idem | rewrite odr_down_idem]; reflexivity.
Qed.





(** ** Startup *)

Lemma trace_startup (s : regs) :
  trace startup s =
  [Wr CLK_CKDIVR 0x00; Wr TIM1_PSCRH 0x00; Wr TIM1_PSCRL 0x07; Wr TIM1_CR1 0x01;
   Wr PB_DDR 0x03; Wr PB_CR1 0x03;
   Rd PB_ODR (get PB_ODR s); Wr PB_ODR (odr_down (get PB_ODR s))].
Proof.
  unfold startup. run_io. rewrite !get_set_other by discriminate. reflexivity.
Qed.

Lemma exec_startup (s : regs) :
  exec startup s =
  set PB_ODR (odr_down (get PB_ODR s))
    (set PB_CR1 0x03 (set PB_DDR 0x03
       (set TIM1_CR1 0x01 (set TIM1_PSCRL 0x07 (set TIM1_PSCRH 0x00
          (set CLK_CKDIVR 0x00 s)))))).
Proof.
  unfold startup. run_io. rewrite !get_set_other by discriminate. reflexivity.
Qed.

(** C6: startup leaves the prescaler register at the division factor less
    one, 8 - 1 = 7, with the core clock undivided and the timer enabled; the
    counter then runs at 16,000,000 / 8 = 2,000,000 increments per second,
    and the two period constants are floor(2,000,000 / 50) = 40,000 and
    floor(2,000,000 / 60) = 33,333. *)
Theorem prescaler_and_periods (s : regs) :
  get CLK_CKDIVR (exec startup s) = 0 /\
  get TIM1_CR1 (exec startup s) = 1 /\
  PSCR (exec startup s) = 8 - 1 /\
  PSCR (exec startup s) = 7 /\
  timer_hz (exec startup s) = F0 / 8 /\
  timer_hz (exec startup s) = 2000000 /\
  TICKS_50HZ = timer_hz (exec startup s) / 50 /\
  TICKS_60HZ = timer_hz (exec startup s) / 60 /\
  TICKS_50HZ = 40000 /\
  TICKS_60HZ = 33333.
Proof.
  assert (Hp : PSCR (exec startup s) = 7).
  { unfold PSCR. rewrite exec_startup.
    rewrite !get_set_other, get_set_same by discriminate.
    rewrite !get_set_other, get_set_same by discriminate. reflexivity. }
  assert (Hz : timer_hz (exec startup s) = 2000000).
  { unfold timer_hz. rewrite Hp. reflexivity. }
  rewrite Hz, Hp, exec_startup.
  rewrite !get_set_other, get_set_same by discriminate.
  rewrite !get_set_other, get_set_same by discriminate.
  repeat split.
Qed.

(** C7: the last thing startup does, after the direction and configuration
    registers of port B are written and before the first pass of the loop,
    is to write the output register with the tick bit clear; the loop is
    entered with the tick pin low. *)
Theorem tick_starts_low (inputs : list sample) (s : regs) :
  trace startup s =
    [Wr CLK_CKDIVR 0x00; Wr TIM1_PSCRH 0x00; Wr TIM1_PSCRL 0x07; Wr TIM1_CR1 0x01;
     Wr PB_DDR 0x03; Wr PB_CR1 0x03;
     Rd PB_ODR (get PB_ODR s); Wr PB_ODR (odr_down (get PB_ODR s))] /\
  pin_high TICK_PIN (odr_down (get PB_ODR s)) = false /\
  tick_out (exec startup s) = false /\
  trace (main inputs) s = trace startup s ++ trace (loop inputs) (exec startup s) /\
  exec (main inputs) s = exec (loop inputs) (exec startup s).
Proof.
  repeat split.
  - apply trace_startup.
  - apply odr_down_tick.
  - unfold tick_out. rewrite exec_startup, get_set_same. apply odr_down_tick.
  - unfold main. rewrite trace_bind. reflexivity.
  - unfold main. rewrite exec_bind. reflexivity.
Qed.

(** C5, as the code has it: startup sets the data direction bit and the
    configuration bit of both pins alike, so the frequency-select pin ends up
    in the same mode as the tick pin, a push-pull output, and not an
    input. *)
Theorem startup_pin_modes (s : regs) :
  get PB_DDR (exec startup s) = Z.lor TICK_PIN FREQ_SELECT_PIN /\
  get PB_CR1 (exec startup s) = Z.lor TICK_PIN FREQ_SELECT_PIN /\
  pin_mode_of TICK_PIN (exec startup s) = Output_push_pull /\
  pin_mode_of FREQ_SELECT_PIN (exec startup s) = Output_push_pull.
Proof.
  unfold pin_mode_of. rewrite exec_startup.
  rewrite !get_set_other, get_set_same by discriminate.
  rewrite !get_set_other, get_set_same by discriminate.
  repeat split.
Qed.

(** ** The high ticks of one period *)

Lemma counter_bytes (c : Z) :
  0 <= c < 2 ^ 16 ->
  Z.lor (Z.shiftl (Z.shiftr c 8) 8) (Z.land c 0xff) = c.
Proof.
  intros _. apply Z.bits_inj'. intros i Hi.
  rewrite Z.lor_spec, Z.land_spec, Z.shiftl_spec by exact Hi.
  change 0xff with (Z.ones 8).
  destruct (Z.ltb_spec i 8) as [H | H].
  - rewrite Z.testbit_neg_r by lia.
    rewrite Z.ones_spec_low, andb_true_r by lia. reflexivity.
  - rewrite Z.shiftr_spec by lia.
    rewrite Z.ones_spec_high, andb_false_r, orb_false_r by lia.
    f_equal. lia.
Qed.

Lemma sampled_at (s : regs) (sel c : Z) :
  0 <= c < 2 ^ 16 -> sampled (observe (sample_at sel c) s) = c.
Proof.
  intros H. rewrite sampled_eq, result_clock. unfold observe, sample_at.
  cbn [in_idr in_cntrh in_cntrl].
  rewrite get_set_other, get_set_same by discriminate.
  rewrite !get_set_other, get_set_same by discriminate.
  assert (Hh : 0 <= Z.shiftr c 8 < 2 ^ 8).
  { rewrite Z.shiftr_div_pow2 by lia. split.
    - apply Z.div_pos; lia.
    - apply Z.div_lt_upper_bound; lia. }
  assert (Hl : 0 <= Z.land c 0xff < 2 ^ 8).
  { change 0xff with (Z.ones 8). rewrite Z.land_ones by lia.
    apply Z.mod_pos_bound. reflexivity. }
  rewrite (u8_small (Z.shiftr c 8)) by exact Hh.
  rewrite (u8_small (Z.land c 0xff)) by exact Hl.
  rewrite (u16_small (Z.shiftr c 8)) by lia.
  rewrite (u16_small (Z.shiftl (Z.shiftr c 8) 8)).
  - rewrite counter_bytes by exact H. apply u16_small. exact H.
  - rewrite Z.shiftl_mul_pow2 by lia. lia.
Qed.

Lemma high_at_eq (s : regs) (sel c : Z) :
  0 <= c < 2 ^ 16 ->
  high_at s sel c =
  let P := if Z.testbit sel 1 then TICKS_60HZ else TICKS_50HZ in
  P / 2 <? (if P <? c then 0 else c).
Proof.
  intros H. unfold high_at.
  rewrite tick_out_loop_body, logical_eq, selected_observe, sampled_at by exact H.
  reflexivity.
Qed.

(** ** The duty-cycle decision *)



(** Up to and including the period itself, the high counts are those above
    the midpoint. *)
Lemma high_count_closed (s : regs) (sel : Z) (n : nat) :
  let P := if Z.testbit sel 1 then TICKS_60HZ else TICKS_50HZ in
  Z.of_nat n <= P + 1 ->
  high_count s sel n = Z.max 0 (Z.of_nat n - (P / 2 + 1)).
Proof.
  cbv zeta. induction n as [| k IH]; intros Hn.
  - destruct (Z.testbit sel 1); reflexivity.
  - cbn [high_count]. rewrite IH by lia.
    rewrite high_at_eq by (destruct (Z.testbit sel 1); unfold TICKS_60HZ, TICKS_50HZ in Hn; lia).
    cbv zeta. revert Hn.
    destruct (Z.testbit sel 1); unfold TICKS_60HZ, TICKS_50HZ; intros Hn.
    + change (33333 / 2) with 16666.
      destruct (Z.ltb_spec 33333 (Z.of_nat k)); [lia |].
      destruct (Z.ltb_spec 16666 (Z.of_nat k)); lia.
    + change (40000 / 2) with 20000.
      destruct (Z.ltb_spec 40000 (Z.of_nat k)); [lia |].
      destruct (Z.ltb_spec 20000 (Z.of_nat k)); lia.
Qed.

Lemma high_count_upto (s : regs) (sel n : Z) :
  let P := if Z.testbit sel 1 then TICKS_60HZ else TICKS_50HZ in
  0 <= n <= P + 1 ->
  high_count s sel (Z.to_nat n) = Z.max 0 (n - (P / 2 + 1)).
Proof.
  cbv zeta. intros H.
  rewrite high_count_closed; rewrite Z2Nat.id by lia; [reflexivity | lia].
Qed.

(** C4, as stated, fails: over the counts of [[0, P)] the tick is high at
    one count fewer than 20,000 (50 Hz) and than 16,667 (60 Hz). *)
Lemma high_ticks_not_as_claimed :
  high_count power_on 0x00 (Z.to_nat TICKS_50HZ) <> 20000 /\
  high_count power_on FREQ_SELECT_PIN (Z.to_nat TICKS_60HZ) <> 16667.
Proof.
  split.
  - rewrite (high_count_upto power_on 0x00 TICKS_50HZ) by (vm_compute; split; discriminate). discriminate.
  - rewrite (high_count_upto power_on FREQ_SELECT_PIN TICKS_60HZ) by (vm_compute; split; discriminate).
    discriminate.
Qed.

(** C4, amended: applying the pass to every count of [[0, P)], the tick is
    high at exactly 19,999 counts for [P] = 40,000 and at exactly 16,666
    counts for [P] = 33,333: the counts strictly above [P / 2].  The figures
    20,000 and 16,667 are reached once the count [P] itself, which a pass
    also decides on without a reset, is taken in. *)
Theorem high_ticks_per_period (s : regs) :
  high_count s 0x00 (Z.to_nat TICKS_50HZ) = 19999 /\
  high_count s FREQ_SELECT_PIN (Z.to_nat TICKS_60HZ) = 16666 /\
  high_count s 0x00 (Z.to_nat (TICKS_50HZ + 1)) = 20000 /\
  high_count s FREQ_SELECT_PIN (Z.to_nat (TICKS_60HZ + 1)) = 16667.
Proof.
  repeat split.
  - rewrite (high_count_upto s 0x00 TICKS_50HZ) by (vm_compute; split; discriminate). reflexivity.
  - rewrite (high_count_upto s FREQ_SELECT_PIN TICKS_60HZ) by (vm_compute; split; discriminate). reflexivity.
  - rewrite (high_count_upto s 0x00 (TICKS_50HZ + 1)) by (vm_compute; split; discriminate). reflexivity.
  - rewrite (high_count_upto s FREQ_SELECT_PIN (TICKS_60HZ + 1)) by (vm_compute; split; discriminate).
    reflexivity.
Qed.

(** ** The frame of the output register *)

Lemma odr_writes_keep_app (pin odr : Z) (t1 t2 : list event) :
  odr_writes_keep pin odr t1 ->
  odr_writes_keep pin (odr_after odr t1) t2 ->
  odr_writes_keep pin odr (t1 ++ t2).
Proof.
  revert odr. induction t1 as [| e t1 IH]; intros odr H1 H2.
  - exact H2.
  - destruct e as [r v | r v]; [exact (IH odr H1 H2) |].
    destruct r; try exact (IH odr H1 H2).
    destruct H1 as [Hv H1]. split; [exact Hv | exact (IH v H1 H2)].
Qed.

Lemma odr_after_app (odr : Z) (t1 t2 : list event) :
  odr_after odr (t1 ++ t2) = odr_after (odr_after odr t1) t2.
Proof.
  revert odr. induction t1 as [| e t1 IH]; intros odr.
  - reflexivity.
  - destruct e as [r v | r v]; [exact (IH odr) |].
    destruct r; solve [exact (IH odr) | exact (IH v)].
Qed.

Lemma odr_value_cases (b : bool) (odr : Z) :
  is_u8 odr ->
  is_u8 ((if b then odr_up else odr_down) odr) /\
  forall i, Z.testbit TICK_PIN i = false ->
            Z.testbit ((if b then odr_up else odr_down) odr) i = Z.testbit odr i.
Proof.
  intros H. destruct b; split;
    solve [apply u8_range
          | intros i Hi; apply odr_up_keeps; assumption
          | intros i Hi; apply odr_down_keeps; assumption].
Qed.

(** What one pass does to the output register: one write, of the old value
    with the tick bit set or cleared. *)
Lemma pass_writes_odr_once (s : regs) :
  exists b : bool,
    get PB_ODR (exec loop_body s) = (if b then odr_up else odr_down) (get PB_ODR s) /\
    forall pin odr,
      odr_after odr (trace loop_body s) = (if b then odr_up else odr_down) (get PB_ODR s) /\
      (odr_writes_keep pin odr (trace loop_body s) <->
       forall i, Z.testbit pin i = false ->
                 Z.testbit ((if b then odr_up else odr_down) (get PB_ODR s)) i
                 = Z.testbit odr i).
Proof.
  exists (selected s / 2 <? logical s).
  rewrite exec_loop_body, trace_loop_body. cbv zeta.
  destruct (selected s <? sampled s), (selected s / 2 <? logical s); run_io;
    rewrite ?(get_set_other PB_ODR TIM1_CNTRL), ?(get_set_other PB_ODR TIM1_CNTRH)
      by discriminate;
    rewrite ?get_set_same;
    rewrite ?(get_set_other PB_ODR TIM1_CNTRL), ?(get_set_other PB_ODR TIM1_CNTRH)
      by discriminate;
    (split; [reflexivity |]); intros pin odr; cbn [odr_after odr_writes_keep];
    (split; [reflexivity | tauto]).
Qed.

Lemma observe_keeps_odr (i : sample) (s : regs) :
  get PB_ODR (observe i s) = get PB_ODR s.
Proof. unfold observe. rewrite !get_set_other by discriminate. reflexivity. Qed.

Lemma loop_keeps_frame (inputs : list sample) (s : regs) :
  is_u8 (get PB_ODR s) ->
  odr_writes_keep TICK_PIN (get PB_ODR s) (trace (loop inputs) s) /\
  odr_after (get PB_ODR s) (trace (loop inputs) s) = get PB_ODR (exec (loop inputs) s) /\
  forall i, Z.testbit TICK_PIN i = false ->
            Z.testbit (get PB_ODR (exec (loop inputs) s)) i = Z.testbit (get PB_ODR s) i.
Proof.
  revert s. induction inputs as [| i rest IH]; intros s Hu.
  - cbn. auto.
  - rewrite trace_loop_cons, exec_loop_cons.
    destruct (pass_writes_odr_once (observe i s)) as (b & He & Ht).
    rewrite observe_keeps_odr in He, Ht.
    destruct (odr_value_cases b (get PB_ODR s) Hu) as [Hu' Hk].
    destruct (Ht TICK_PIN (get PB_ODR s)) as [Ha Hw].
    rewrite <- He in Hu', Hk, Ha.
    destruct (IH (exec loop_body (observe i s)) Hu') as (IH1 & IH2 & IH3).
    split; [| split].
    + apply odr_writes_keep_app.
      * apply Hw. rewrite <- He. exact Hk.
      * rewrite Ha. exact IH1.
    + rewrite odr_after_app, Ha. exact IH2.
    + intros j Hj. rewrite (IH3 j Hj). exact (Hk j Hj).
Qed.

(** C10: along startup's low-forcing step and any number of passes of the
    loop, each write to the output register keeps every bit other than the
    tick pin's as the register held it just before the write, and so the
    register ends with all of those bits as they were at the start. *)
Theorem odr_writes_touch_tick_only (inputs : list sample) (s : regs) :
  is_u8 (get PB_ODR s) ->
  odr_writes_keep TICK_PIN (get PB_ODR s) (trace (main inputs) s) /\
  odr_after (get PB_ODR s) (trace (main inputs) s) = get PB_ODR (exec (main inputs) s) /\
  forall i, Z.testbit TICK_PIN i = false ->
            Z.testbit (get PB_ODR (exec (main inputs) s)) i = Z.testbit (get PB_ODR s) i.
Proof.
  intros Hu. unfold main. rewrite trace_bind, exec_bind.
  assert (Ho : get PB_ODR (exec startup s) = odr_down (get PB_ODR s)).
  { rewrite exec_startup. apply get_set_same. }
  assert (Ha : odr_after (get PB_ODR s) (trace startup s) = get PB_ODR (exec startup s)).
  { rewrite trace_startup, Ho. reflexivity. }
  assert (Hu' : is_u8 (get PB_ODR (exec startup s))).
  { rewrite Ho. apply u8_range. }
  destruct (loop_keeps_frame inputs (exec startup s) Hu') as (L1 & L2 & L3).
  split; [| split].
  - apply odr_writes_keep_app.
    + rewrite trace_startup. cbn [odr_writes_keep].
      split; [| exact I]. intros i Hi. apply odr_down_keeps; assumption.
    + rewrite Ha. exact L1.
  - rewrite odr_after_app, Ha. exact L2.
  - intros i Hi. rewrite (L3 i Hi), Ho. apply odr_down_keeps; assumption.
Qed.

(** From a register file whose output register holds 0xA4, two passes: one
    at count 25,000 with select low, one at count 40,000 with select
    high. *)
Lemma odr_writes_touch_tick_only_witness :
  is_u8 (get PB_ODR (set PB_ODR 0xA4 power_on)) /\
  odr_writes_keep TICK_PIN 0xA4
    (trace (main [mkSample 0 0x61 0xA8; mkSample 0x02 0x9C 0x40])
       (set PB_ODR 0xA4 power_on)).
Proof.
  assert (H : is_u8 (get PB_ODR (set PB_ODR 0xA4 power_on))).
  { vm_compute. split; [discriminate | reflexivity]. }
  split; [exact H |].
  apply (odr_writes_touch_tick_only
           [mkSample 0 0x61 0xA8; mkSample 0x02 0x9C 0x40]
           (set PB_ODR 0xA4 power_on) H).
Defined.

(** ** Registers stay 8 bits wide *)

Lemma set_ok (r : reg) (v : Z) (s : regs) :
  regs_ok s -> is_u8 v -> regs_ok (set r v s).
Proof.
  intros Hs Hv r'. assert (H := Hs r').
  destruct s, r, r'; cbn in *; assumption.
Qed.

Lemma observe_ok (i : sample) (s : regs) : regs_ok s -> regs_ok (observe i s).
Proof. intros H. unfold observe. repeat apply set_ok; try apply u8_range. exact H. Qed.

Lemma startup_ok (s : regs) : regs_ok s -> regs_ok (exec startup s).
Proof.
  intros H. rewrite exec_startup.
  repeat apply set_ok; try exact H; try apply u8_range; split; (discriminate || reflexivity).
Qed.

Lemma loop_body_ok (s : regs) : regs_ok s -> regs_ok (exec loop_body s).
Proof.
  intros H. rewrite exec_loop_body. cbv zeta.
  destruct (selected s <? sampled s), (selected s / 2 <? logical s); run_io;
    repeat apply set_ok; try exact H; try apply u8_range;
    split; (discriminate || reflexivity).
Qed.

Lemma main_ok (inputs : list sample) (s : regs) :
  regs_ok s -> regs_ok (exec (main inputs) s).
Proof.
  intros H. unfold main. rewrite exec_bind.
  assert (H' := startup_ok s H). revert H'. generalize (exec startup s).
  induction inputs as [| i rest IH]; intros s' H'.
  - exact H'.
  - rewrite exec_loop_cons. apply IH, loop_body_ok, observe_ok, H'.
Qed.

(** * Further properties of the code *)

(** ** [clock] and [reset_clock] *)

Lemma bytes_join (h l : Z) :
  is_u8 h -> is_u8 l -> Z.lor (Z.shiftl h 8) l = 256 * h + l.
Proof.
  unfold is_u8. intros Hh Hl.
  assert (Hc : 0 <= 256 * h + l < 2 ^ 16) by lia.
  symmetry. rewrite <- (counter_bytes (256 * h + l) Hc).
  assert (E1 : Z.shiftr (256 * h + l) 8 = h).
  { rewrite Z.shiftr_div_pow2 by lia. symmetry.
    apply (Z.div_unique (256 * h + l) (2 ^ 8) h l); lia. }
  assert (E2 : Z.land (256 * h + l) 0xff = l).
  { change 0xff with (Z.ones 8). rewrite Z.land_ones by lia. symmetry.
    apply (Z.mod_unique (256 * h + l) (2 ^ 8) h l); lia. }
  rewrite E1, E2. reflexivity.
Qed.

(** [clock] joins the two counter bytes, high byte first, into the 16-bit
    count [256 * h + l]; it reads the high byte and then the low byte, once
    each, and writes nothing. *)
Theorem clock_joins_bytes (s : regs) :
  is_u8 (get TIM1_CNTRH s) -> is_u8 (get TIM1_CNTRL s) ->
  result clock s = 256 * get TIM1_CNTRH s + get TIM1_CNTRL s /\
  0 <= result clock s <= 0xFFFF /\
  exec clock s = s /\
  trace clock s = [Rd TIM1_CNTRH (get TIM1_CNTRH s); Rd TIM1_CNTRL (get TIM1_CNTRL s)].
Proof.
  intros Hh Hl.
  assert (E : result clock s = 256 * get TIM1_CNTRH s + get TIM1_CNTRL s).
  { rewrite result_clock. unfold is_u8 in Hh, Hl.
    rewrite (u16_small (get TIM1_CNTRH s)) by lia.
    rewrite (u16_small (Z.shiftl _ 8)) by (rewrite Z.shiftl_mul_pow2; lia).
    rewrite bytes_join by assumption. apply u16_small. lia. }
  rewrite E, exec_clock, trace_clock. unfold is_u8 in Hh, Hl.
  repeat split; lia.
Qed.

(** The timer at 0x9C40 = 40,000. *)
Lemma clock_joins_bytes_witness :
  is_u8 (get TIM1_CNTRH (observe (mkSample 0 0x9C 0x40) power_on)) /\
  is_u8 (get TIM1_CNTRL (observe (mkSample 0 0x9C 0x40) power_on)) /\
  result clock (observe (mkSample 0 0x9C 0x40) power_on)
  = 256 * get TIM1_CNTRH (observe (mkSample 0 0x9C 0x40) power_on)
    + get TIM1_CNTRL (observe (mkSample 0 0x9C 0x40) power_on).
Proof.
  assert (Hh : is_u8 (get TIM1_CNTRH (observe (mkSample 0 0x9C 0x40) power_on))).
  { vm_compute. split; [discriminate | reflexivity]. }
  assert (Hl : is_u8 (get TIM1_CNTRL (observe (mkSample 0 0x9C 0x40) power_on))).
  { vm_compute. split; [discriminate | reflexivity]. }
  split; [exact Hh | split; [exact Hl |]].
  apply (clock_joins_bytes (observe (mkSample 0 0x9C 0x40) power_on) Hh Hl).
Defined.

(** Whatever the registers hold, [reset_clock] leaves the counter reading
    0xFFFF, which is above both target periods, and touches no register
    other than the two counter bytes; doing it twice is doing it once. *)
Theorem reset_clock_effect (s : regs) :
  result clock (exec reset_clock s) = 0xFFFF /\
  result clock (exec reset_clock s) > TICKS_50HZ /\
  result clock (exec reset_clock s) > TICKS_60HZ /\
  (forall r, r <> TIM1_CNTRH -> r <> TIM1_CNTRL ->
             get r (exec reset_clock s) = get r s) /\
  exec reset_clock (exec reset_clock s) = exec reset_clock s.
Proof.
  assert (E : result clock (exec reset_clock s) = 0xFFFF).
  { rewrite result_clock, exec_reset_clock.
    rewrite get_set_same, get_set_other, get_set_same by discriminate. reflexivity. }
  rewrite E. repeat split.
  - intros r H1 H2. rewrite exec_reset_clock.
    rewrite !get_set_other by congruence. reflexivity.
  - rewrite !exec_reset_clock. destruct s; reflexivity.
Qed.

(** ** The counter value a pass decides on *)

(** The sampled count is a 16-bit value and the logical count is either the
    sampled one or 0; in every case the decision is taken on a value between
    0 and the selected period, both included. *)
Theorem logical_within_period (s : regs) :
  0 <= sampled s <= 0xFFFF /\
  (logical s = sampled s \/ logical s = 0) /\
  0 <= logical s <= selected s.
Proof.
  assert (Hs : 0 <= sampled s <= 0xFFFF).
  { rewrite sampled_eq, result_clock.
    set (x := Z.lor (u16 (Z.shiftl (u16 (get TIM1_CNTRH s)) 8)) (get TIM1_CNTRL s)).
    unfold u16. assert (H := Z.mod_pos_bound x (2 ^ 16) eq_refl).
    change (2 ^ 16) with 65536 in *. lia. }
  split; [exact Hs |].
  rewrite logical_eq.
  destruct (Z.ltb_spec (selected s) (sampled s)) as [H | H].
  - split; [right; reflexivity |].
    destruct (selected_cases s) as [-> | ->]; split; discriminate.
  - split; [left; reflexivity | lia].
Qed.




(** ** Running a pass again *)

Lemma exec_loop_body_overshoot (s : regs) :
  selected s < sampled s ->
  exec loop_body s =
  set PB_ODR (odr_down (get PB_ODR s)) (set TIM1_CNTRL 0xff (set TIM1_CNTRH 0xff s)).
Proof.
  intros H.
  assert (Hr : (selected s <? sampled s) = true) by (apply Z.ltb_lt; exact H).
  assert (Hd : (selected s / 2 <? logical s) = false).
  { rewrite logical_eq, Hr. destruct (selected_cases s) as [-> | ->]; reflexivity. }
  rewrite exec_loop_body, Hr, Hd. cbv zeta. run_io.
  rewrite !get_set_other by discriminate. reflexivity.
Qed.

Lemma inputs_after_reset (v : Z) (s : regs) :
  selected (set PB_ODR v (set TIM1_CNTRL 0xff (set TIM1_CNTRH 0xff s))) = selected s /\
  sampled (set PB_ODR v (set TIM1_CNTRL 0xff (set TIM1_CNTRH 0xff s))) = 0xFFFF.
Proof.
  split.
  - rewrite !selected_eq. unfold freq_select.
    rewrite !get_set_other by discriminate. reflexivity.
  - rewrite sampled_eq, result_clock.
    rewrite get_set_other, get_set_other, get_set_same by discriminate.
    rewrite get_set_other, get_set_same by discriminate. reflexivity.
Qed.

(** With the hardware standing still, a second pass changes nothing the
    first one left: not only below the period, but also after a reset, when
    the counter the second pass reads is the 0xFFFF the first one wrote. *)
Theorem loop_body_idempotent (s : regs) :
  exec loop_body (exec loop_body s) = exec loop_body s.
Proof.
  destruct (Z.ltb_spec (selected s) (sampled s)) as [H | H].
  - rewrite (exec_loop_body_overshoot s H).
    destruct (inputs_after_reset (odr_down (get PB_ODR s)) s) as [Hsel Hsam].
    rewrite exec_loop_body_overshoot.
    + rewrite get_set_same, odr_down_idem. destruct s; reflexivity.
    + rewrite Hsel, Hsam. destruct (selected_cases s) as [-> | ->]; reflexivity.
  - apply loop_body_idem. exact H.
Qed.

(** ** The output as a function of the raw counter *)

(** Over the whole 16-bit range of the counter the tick is driven high on
    exactly the counts above half the period and up to the period itself:
    low from 0 to [P / 2], high up to [P], low again on every overshoot. *)
Theorem high_window (s : regs) (sel c : Z) :
  0 <= c < 2 ^ 16 ->
  (Z.testbit sel 1 = false -> (high_at s sel c = true <-> 20000 < c <= 40000)) /\
  (Z.testbit sel 1 = true -> (high_at s sel c = true <-> 16666 < c <= 33333)).
Proof.
  intros H. rewrite (high_at_eq s sel c H). cbv zeta.
  split; intros ->; unfold TICKS_50HZ, TICKS_60HZ.
  - change (40000 / 2) with 20000.
    destruct (Z.ltb_spec 40000 c); [| rewrite Z.ltb_lt; lia].
    split; [discriminate | lia].
  - change (33333 / 2) with 16666.
    destruct (Z.ltb_spec 33333 c); [| rewrite Z.ltb_lt; lia].
    split; [discriminate | lia].
Qed.

(** Select low and the timer at 40,000, the last high count at 50 Hz. *)
Lemma high_window_witness :
  0 <= 40000 < 2 ^ 16 /\ high_at power_on 0x00 40000 = true.
Proof.
  assert (H : 0 <= 40000 < 2 ^ 16) by lia.
  split; [exact H |].
  apply (proj1 (high_window power_on 0x00 40000 H)); [reflexivity | lia].
Defined.

(** ** What the loop leaves alone *)

Lemma pass_keeps_config (r : reg) (s : regs) :
  is_config r = true -> get r (exec loop_body s) = get r s.
Proof.
  intros Hr. rewrite exec_loop_body. cbv zeta.
  destruct (selected s <? sampled s), (selected s / 2 <? logical s); run_io;
    destruct r; try discriminate Hr;
    rewrite !get_set_other by discriminate; reflexivity.
Qed.

Lemma observe_keeps_config (r : reg) (i : sample) (s : regs) :
  is_config r = true -> get r (observe i s) = get r s.
Proof.
  intros Hr. unfold observe.
  destruct r; try discriminate Hr; rewrite !get_set_other by discriminate; reflexivity.
Qed.

Lemma pass_writes_no_config (r : reg) (s : regs) :
  is_config r = true -> writes_to r (trace loop_body s) = [].
Proof.
  intros Hr. rewrite trace_loop_body. cbv zeta.
  destruct (selected s <? sampled s), (selected s / 2 <? logical s); run_io;
    destruct r; try discriminate Hr; reflexivity.
Qed.

Lemma writes_to_app (r : reg) (t1 t2 : list event) :
  writes_to r (t1 ++ t2) = writes_to r t1 ++ writes_to r t2.
Proof.
  induction t1 as [| e t1 IH]; [reflexivity |].
  destruct e as [r' v | r' v]; cbn [app writes_to]; [exact IH |].
  destruct (reg_eqb r r'); [cbn [app]; f_equal |]; exact IH.
Qed.

Lemma loop_keeps_config (r : reg) (inputs : list sample) (s : regs) :
  is_config r = true ->
  get r (exec (loop inputs) s) = get r s /\
  writes_to r (trace (loop inputs) s) = [].
Proof.
  intros Hr. revert s. induction inputs as [| i rest IH]; intros s.
  - split; reflexivity.
  - rewrite exec_loop_cons, trace_loop_cons, writes_to_app.
    destruct (IH (exec loop_body (observe i s))) as [IH1 IH2].
    rewrite IH1, IH2, pass_keeps_config, observe_keeps_config, pass_writes_no_config
      by exact Hr.
    split; reflexivity.
Qed.

(** However many passes run and whatever they sample, the loop never writes
    the clock divider, the prescaler, the timer enable or the direction and
    configuration of port B: each is written once, by startup, and keeps the
    value startup gave it, so the counter keeps running at 2 MHz. *)
Theorem configuration_is_settled (inputs : list sample) (s : regs) :
  (forall r, is_config r = true ->
             writes_to r (trace (loop inputs) (exec startup s)) = [] /\
             length (writes_to r (trace (main inputs) s)) = 1%nat /\
             get r (exec (main inputs) s) = get r (exec startup s)) /\
  timer_hz (exec (main inputs) s) = 2000000.
Proof.
  assert (Hm : forall r, is_config r = true ->
             writes_to r (trace (loop inputs) (exec startup s)) = [] /\
             length (writes_to r (trace (main inputs) s)) = 1%nat /\
             get r (exec (main inputs) s) = get r (exec startup s)).
  { intros r Hr. unfold main. rewrite trace_bind, exec_bind, writes_to_app.
    destruct (loop_keeps_config r inputs (exec startup s) Hr) as [L1 L2].
    rewrite L1, L2, app_nil_r, trace_startup.
    repeat split. destruct r; try discriminate Hr; reflexivity. }
  split; [exact Hm |].
  unfold timer_hz, PSCR.
  rewrite (proj2 (proj2 (Hm TIM1_PSCRH eq_refl))), (proj2 (proj2 (Hm TIM1_PSCRL eq_refl))).
  rewrite exec_startup.
  rewrite !get_set_other, get_set_same by discriminate.
  rewrite !get_set_other, get_set_same by discriminate. reflexivity.
Qed.

(** ** The access log of a run *)

Lemma reads_of_app (r : reg) (t1 t2 : list event) :
  reads_of r (t1 ++ t2) = reads_of r t1 ++ reads_of r t2.
Proof.
  induction t1 as [| e t1 IH]; [reflexivity |].
  destruct e as [r' v | r' v]; cbn [app reads_of]; [| exact IH].
  destruct (reg_eqb r r'); [cbn [app]; f_equal |]; exact IH.
Qed.

Lemma pass_reads (s : regs) :
  reads_of PB_IDR (trace loop_body s) = [get PB_IDR s] /\
  reads_of TIM1_CNTRH (trace loop_body s) = [get TIM1_CNTRH s] /\
  reads_of TIM1_CNTRL (trace loop_body s) = [get TIM1_CNTRL s].
Proof.
  rewrite trace_loop_body. cbv zeta.
  destruct (selected s <? sampled s), (selected s / 2 <? logical s); run_io;
    repeat split.
Qed.

Lemma pass_odr_write (s : regs) :
  writes_to PB_ODR (trace loop_body s) = [get PB_ODR (exec loop_body s)].
Proof.
  rewrite trace_loop_body, exec_loop_body. cbv zeta.
  destruct (selected s <? sampled s), (selected s / 2 <? logical s); run_io;
    rewrite ?get_set_same; reflexivity.
Qed.

Lemma pass_counter_writes (s : regs) :
  writes_to TIM1_CNTRH (trace loop_body s)
  = (if selected s <? sampled s then [0xff] else []) /\
  writes_to TIM1_CNTRL (trace loop_body s)
  = (if selected s <? sampled s then [0xff] else []).
Proof.
  rewrite trace_loop_body. cbv zeta.
  destruct (selected s <? sampled s), (selected s / 2 <? logical s); run_io;
    split; reflexivity.
Qed.

Lemma observe_reads (i : sample) (s : regs) :
  get PB_IDR (observe i s) = u8 (in_idr i) /\
  get TIM1_CNTRH (observe i s) = u8 (in_cntrh i) /\
  get TIM1_CNTRL (observe i s) = u8 (in_cntrl i).
Proof.
  unfold observe. repeat split.
  - apply get_set_same.
  - rewrite get_set_other, get_set_same by discriminate. reflexivity.
  - rewrite !get_set_other, get_set_same by discriminate. reflexivity.
Qed.

Lemma loop_reads (inputs : list sample) (s : regs) :
  reads_of PB_IDR (trace (loop inputs) s) = map (fun i => u8 (in_idr i)) inputs /\
  reads_of TIM1_CNTRH (trace (loop inputs) s) = map (fun i => u8 (in_cntrh i)) inputs /\
  reads_of TIM1_CNTRL (trace (loop inputs) s) = map (fun i => u8 (in_cntrl i)) inputs.
Proof.
  revert s. induction inputs as [| i rest IH]; intros s.
  - repeat split.
  - rewrite trace_loop_cons, !reads_of_app.
    destruct (IH (exec loop_body (observe i s))) as (I1 & I2 & I3).
    destruct (pass_reads (observe i s)) as (P1 & P2 & P3).
    destruct (observe_reads i s) as (O1 & O2 & O3).
    rewrite I1, I2, I3, P1, P2, P3, O1, O2, O3. repeat split.
Qed.

(** Along a run the program samples the select pin and each counter byte
    exactly once per pass, and what it reads is what the hardware presented
    in that pass; startup samples none of them. *)
Theorem one_sample_per_pass (inputs : list sample) (s : regs) :
  reads_of PB_IDR (trace (main inputs) s) = map (fun i => u8 (in_idr i)) inputs /\
  reads_of TIM1_CNTRH (trace (main inputs) s) = map (fun i => u8 (in_cntrh i)) inputs /\
  reads_of TIM1_CNTRL (trace (main inputs) s) = map (fun i => u8 (in_cntrl i)) inputs.
Proof.
  unfold main. rewrite trace_bind, !reads_of_app, trace_startup.
  exact (loop_reads inputs (exec startup s)).
Qed.

Lemma length_result_loop (inputs : list sample) (s : regs) :
  length (result (loop inputs) s) = length inputs.
Proof.
  revert s. induction inputs as [| i rest IH]; intros s.
  - reflexivity.
  - rewrite result_loop_cons. cbn [length]. f_equal. apply IH.
Qed.

Lemma startup_odr_write (s : regs) :
  writes_to PB_ODR (trace startup s) = [odr_down (get PB_ODR s)].
Proof. rewrite trace_startup. reflexivity. Qed.

Lemma loop_driven_levels (inputs : list sample) (s : regs) :
  map (pin_high TICK_PIN) (writes_to PB_ODR (trace (loop inputs) s))
  = map (fun l => ticks l / 2 <? ck l) (result (loop inputs) s).
Proof.
  revert s. induction inputs as [| i rest IH]; intros s.
  - reflexivity.
  - rewrite trace_loop_cons, result_loop_cons, writes_to_app, map_app.
    rewrite IH, pass_odr_write. cbn [map app]. f_equal.
    exact (tick_out_loop_body (observe i s)).
Qed.

(** The waveform: the program writes the output register once in startup,
    with the tick low, and once in every pass; the levels the passes drive
    on the tick pin are, pass by pass, the decisions [ck > ticks / 2] on
    the locals of those passes. *)
Theorem driven_levels (inputs : list sample) (s : regs) :
  map (pin_high TICK_PIN) (writes_to PB_ODR (trace (main inputs) s))
  = false :: map (fun l => ticks l / 2 <? ck l) (result (main inputs) s) /\
  length (writes_to PB_ODR (trace (main inputs) s)) = S (length inputs).
Proof.
  assert (E : map (pin_high TICK_PIN) (writes_to PB_ODR (trace (main inputs) s))
              = false :: map (fun l => ticks l / 2 <? ck l) (result (main inputs) s)).
  { unfold main. rewrite trace_bind, result_bind, writes_to_app, map_app.
    rewrite loop_driven_levels, startup_odr_write. cbn [map app].
    rewrite odr_down_tick. reflexivity. }
  split; [exact E |].
  rewrite <- (length_map (pin_high TICK_PIN)), E. cbn [length]. f_equal.
  rewrite length_map. unfold main. rewrite result_bind.
  apply length_result_loop.
Qed.

Lemma loop_counter_writes (inputs : list sample) (s : regs) :
  writes_to TIM1_CNTRH (trace (loop inputs) s)
  = map (fun _ => 0xff) (filter (fun l => ticks l <? ck0 l) (result (loop inputs) s)) /\
  writes_to TIM1_CNTRL (trace (loop inputs) s)
  = map (fun _ => 0xff) (filter (fun l => ticks l <? ck0 l) (result (loop inputs) s)).
Proof.
  revert s. induction inputs as [| i rest IH]; intros s.
  - split; reflexivity.
  - rewrite trace_loop_cons, result_loop_cons, !writes_to_app.
    destruct (IH (exec loop_body (observe i s))) as [I1 I2].
    destruct (pass_counter_writes (observe i s)) as [P1 P2].
    rewrite I1, I2, P1, P2. cbn [filter].
    change (ticks (result loop_body (observe i s))) with (selected (observe i s)).
    change (ck0 (result loop_body (observe i s))) with (sampled (observe i s)).
    destruct (selected (observe i s) <? sampled (observe i s)); split; reflexivity.
Qed.

(** The counter is written only to reset it: along a run each counter byte
    receives one write of 0xFF for every pass whose sampled value exceeds
    the selected period, and no other write, startup's included. *)
Theorem one_reset_per_overshoot (inputs : list sample) (s : regs) :
  writes_to TIM1_CNTRH (trace (main inputs) s)
  = map (fun _ => 0xff) (filter (fun l => ticks l <? ck0 l) (result (main inputs) s)) /\
  writes_to TIM1_CNTRL (trace (main inputs) s)
  = map (fun _ => 0xff) (filter (fun l => ticks l <? ck0 l) (result (main inputs) s)).
Proof.
  unfold main. rewrite trace_bind, result_bind, !writes_to_app, trace_startup.
  exact (loop_counter_writes inputs (exec startup s)).
Qed.

(** ** Running startup again *)

(** Startup gives the register file it gives whatever the six registers it
    programs outright held before; the output register, which it updates by
    read-modify-write, ends as its previous content with the tick bit
    cleared; the select input and the counter are left as they were; and
    running startup a second time, as after a warm restart, changes nothing
    the first run left. *)
Theorem startup_idempotent (s : regs) :
  exec startup (exec startup s) = exec startup s /\
  (forall a b c d e f,
      exec startup
        (set CLK_CKDIVR a (set TIM1_PSCRH b (set TIM1_PSCRL c
           (set TIM1_CR1 d (set PB_DDR e (set PB_CR1 f s))))))
      = exec startup s) /\
  get PB_ODR (exec startup s) = odr_down (get PB_ODR s) /\
  get PB_IDR (exec startup s) = get PB_IDR s /\
  get TIM1_CNTRH (exec startup s) = get TIM1_CNTRH s /\
  get TIM1_CNTRL (exec startup s) = get TIM1_CNTRL s.
Proof.
  repeat split.
  - rewrite !exec_startup, get_set_same, odr_down_idem. destruct s; reflexivity.
  - intros a b c d e f. rewrite !exec_startup. destruct s; reflexivity.
  - rewrite exec_startup. apply get_set_same.
  - rewrite exec_startup, !get_set_other by discriminate. reflexivity.
  - rewrite exec_startup, !get_set_other by discriminate. reflexivity.
  - rewrite exec_startup, !get_set_other by discriminate. reflexivity.
Qed.
